(** * EAD_EnergyAwareDrone: distance, energy model and speed optimiser

    A shallow embedding of [src/EAD_EnergyAwareDrone.cxx].  The program is
    written once, over an interface [Double] for the C++ type [double] and
    the operations the source applies to it, and is then read at two
    instances of that interface:

    - [F64]: IEEE 754 binary64 with round-to-nearest-even, through Rocq's
      primitive floats.  This is what the compiled program computes:
      [+], [-], [*], [/] and [std::sqrt] are correctly rounded, and
      [std::pow(x, 2)] is [x * x].
    - [Exact]: the real numbers, every operation without rounding.  This is
      the arithmetic the comments of the source are written in.

    [std::vector<Waypoint>] is a list, [size_t] is an integer modulo 2^64
    with the wrap-around written out, indexing outside the vector is an
    explicit outcome of the loop.  [main] takes no input and prints four
    numbers; it is modelled by the record of these numbers, and its body by
    a function [run] of the coefficients and the waypoints it declares. *)

From Stdlib Require Import ZArith List Bool Lia.
From Stdlib Require Import Reals Lra Psatz.
From Stdlib Require Import Floats.
Import ListNotations.

Set Warnings "-inexact-float".

(** ** The type [double] and its operations *)

Class Double (D : Type) : Type := {
  of_int : Z -> D;          (* an integer constant converted to double *)
  add : D -> D -> D;        (* operator+ *)
  sub : D -> D -> D;        (* operator- *)
  mul : D -> D -> D;        (* operator* *)
  div : D -> D -> D;        (* operator/ *)
  sqrt : D -> D;            (* std::sqrt *)
  neqb : D -> D -> bool     (* operator!= *)
}.

Declare Scope dbl_scope.
Delimit Scope dbl_scope with dbl.
Infix "+" := add : dbl_scope.
Infix "-" := sub : dbl_scope.
Infix "*" := mul : dbl_scope.
Infix "/" := div : dbl_scope.

(** ** The program *)

(** How a run of the loop of [main] ends: normally, with a value; by
    reading the vector at an index it does not have (undefined behaviour in
    C++); or, in the model only, by exhausting its fuel. *)
Inductive outcome (A : Type) : Type :=
| Done (a : A)
| OutOfBounds (index : Z)
| OutOfFuel.
Arguments Done {A} a.
Arguments OutOfBounds {A} index.
Arguments OutOfFuel {A}.

Section Program.

Context {D : Type} `{Double D}.

Local Open Scope dbl_scope.

(** [std::pow(x, n)] for a positive integer exponent, as repeated
    multiplication; [pow x 2] unfolds to [x * x], which is also the value a
    correctly rounded [pow] returns for the exponent 2. *)
Definition pow (x : D) (n : positive) : D := Pos.iter_op mul n x.

(** struct Waypoint { double x, y, z; } *)
Record Waypoint : Type := mkWaypoint { x : D; y : D; z : D }.

(** double distance(const Waypoint& wp1, const Waypoint& wp2) *)
Definition distance (wp1 wp2 : Waypoint) : D :=
  sqrt (pow (wp2.(x) - wp1.(x)) 2 +
        pow (wp2.(y) - wp1.(y)) 2 +
        pow (wp2.(z) - wp1.(z)) 2).

(** double energyConsumption(double velocity, double altitude,
                             double a, double b, double c) *)
Definition energyConsumption (velocity altitude a b c : D) : D :=
  a * pow velocity 2 + b * altitude + c.

(** std::tuple<double, double> findOptimalSpeedAndAltitude(double a, double b) *)
Definition findOptimalSpeedAndAltitude (a b : D) : D * D :=
  let optimalVelocity := of_int 0 in
  let optimalAltitude := of_int 100 in
  let optimalVelocity :=
    if neqb a (of_int 0) then sqrt (b / (of_int 2 * a)) else optimalVelocity in
  (optimalVelocity, optimalAltitude).

(** *** The summation loop of [main]

    [for (size_t i = 0; i < waypoints.size() - 1; ++i)
         totalDistance += distance(waypoints[i], waypoints[i + 1]);]

    [size_t] is unsigned and 64 bits wide: [waypoints.size() - 1] and [++i]
    are taken modulo 2^64.  [operator[]] does not check its index; an index
    outside the vector ends the run as [OutOfBounds] with the offending
    index. *)

Definition SIZE_WIDTH : Z := 64.
Definition size_wrap (n : Z) : Z := n mod 2 ^ SIZE_WIDTH.

Definition size (waypoints : list Waypoint) : Z :=
  Z.of_nat (length waypoints).

Definition at_index (waypoints : list Waypoint) (i : Z) : option Waypoint :=
  if (i <? 0)%Z then None else nth_error waypoints (Z.to_nat i).

Fixpoint sum_loop (fuel : nat) (waypoints : list Waypoint)
                  (i : Z) (totalDistance : D) : outcome D :=
  match fuel with
  | O => OutOfFuel
  | S fuel' =>
      if (i <? size_wrap (size waypoints - 1))%Z then
        match at_index waypoints i with
        | None => OutOfBounds i
        | Some wp1 =>
            match at_index waypoints (size_wrap (i + 1)) with
            | None => OutOfBounds (size_wrap (i + 1))
            | Some wp2 =>
                sum_loop fuel' waypoints (size_wrap (i + 1))
                         (totalDistance + distance wp1 wp2)
            end
        end
      else Done totalDistance
  end.

(** What the loop is meant to compute: the distances between consecutive
    waypoints, added to the accumulator from left to right. *)
Fixpoint path_sum (waypoints : list Waypoint) (acc : D) : D :=
  match waypoints with
  | wp1 :: (wp2 :: _) as rest => path_sum rest (acc + distance wp1 wp2)
  | _ => acc
  end.

(** The loop started as [main] starts it.  One unit of fuel per element and
    one for the final test is enough ([sum_loop_enough_fuel] below). *)
Definition pathLength (waypoints : list Waypoint) : outcome D :=
  sum_loop (S (length waypoints)) waypoints 0 (of_int 0).

(** *** The body of [main]

    The four values [main] prints, in the order it prints them. *)
Record Report : Type := mkReport {
  totalDistance : D;
  optimalVelocity : D;
  optimalAltitude : D;
  totalEnergy : D
}.

Definition run (a b c : D) (waypoints : list Waypoint) : outcome Report :=
  match pathLength waypoints with
  | Done totalDistance =>
      let '(optimalVelocity, optimalAltitude) := findOptimalSpeedAndAltitude a b in
      let totalEnergy :=
        energyConsumption optimalVelocity optimalAltitude a b c * totalDistance in
      Done (mkReport totalDistance optimalVelocity optimalAltitude totalEnergy)
  | OutOfBounds i => OutOfBounds i
  | OutOfFuel => OutOfFuel
  end.

End Program.

Arguments Waypoint D : clear implicits.
Arguments Report D : clear implicits.

(** ** Binary64 *)

Module F64.

(** An [int] converted to [double]: the nearest binary64 number. *)
Definition of_Z (z : Z) : float :=
  SF2Prim (binary_normalize prec emax z 0 false).

#[global] Instance double_float : Double float := {
  of_int := of_Z;
  add := PrimFloat.add;
  sub := PrimFloat.sub;
  mul := PrimFloat.mul;
  div := PrimFloat.div;
  sqrt := PrimFloat.sqrt;
  neqb := fun x y => negb (PrimFloat.eqb x y)
}.

Local Open Scope float_scope.

(** The data of [main]: the coefficients and the waypoints. *)
Definition a : float := 0.1.
Definition b : float := 0.05.
Definition c : float := 10.0.

Definition waypoints : list (Waypoint float) :=
  [ mkWaypoint 0 0 100;
    mkWaypoint 100 100 150;
    mkWaypoint 200 50 120;
    mkWaypoint 300 200 150 ].

Definition main : outcome (Report float) := run a b c waypoints.

(** Neither an infinity nor a NaN. *)
Definition is_finite_SF (x : spec_float) : bool :=
  match x with
  | S754_zero _ | S754_finite _ _ _ => true
  | S754_infinity _ | S754_nan => false
  end.

Definition finite (x : float) : bool := is_finite_SF (Prim2SF x).

Definition finite_waypoint (p : Waypoint float) : bool :=
  finite p.(x) && finite p.(y) && finite p.(z).

(** Equal up to the sign. *)
Definition same_magnitude (x y : spec_float) : Prop := SFabs x = SFabs y.

(** Not a negative number: the sign bit is clear, or the value is a NaN. *)
Definition nonneg_SF (x : spec_float) : bool :=
  match x with
  | S754_nan => true
  | S754_zero s | S754_infinity s | S754_finite s _ _ => negb s
  end.

Definition nonneg (x : float) : bool := nonneg_SF (Prim2SF x).

(** One of the three coordinates is a NaN. *)
Definition nan_waypoint (p : Waypoint float) : Prop :=
  p.(x) = nan \/ p.(y) = nan \/ p.(z) = nan.

End F64.

(** ** Exact real arithmetic *)

Module Exact.

Local Open Scope R_scope.

#[global] Instance double_real : Double R := {
  of_int := IZR;
  add := Rplus;
  sub := Rminus;
  mul := Rmult;
  div := Rdiv;
  sqrt := R_sqrt.sqrt;
  neqb := fun x y => if Req_dec_T x y then false else true
}.

Definition a : R := 0.1.
Definition b : R := 0.05.
Definition c : R := 10.0.

Definition waypoints : list (Waypoint R) :=
  [ mkWaypoint 0 0 100;
    mkWaypoint 100 100 150;
    mkWaypoint 200 50 120;
    mkWaypoint 300 200 150 ].

Definition main : outcome (Report R) := run a b c waypoints.

(** The Euclidean norm [distance] takes of the difference of two
    waypoints. *)
Definition norm3 (x y z : R) : R := R_sqrt.sqrt (x * x + y * y + z * z).

End Exact.

(** Closes a goal by comparing specification values. *)
Ltac by_spec := apply Prim2SF_inj.

(** Closes a goal whose hypothesis [H] equates two different binary64
    constants. *)
Ltac float_discriminate H :=
  apply (proj2 (FloatAxioms.Leibniz.eqb_spec _ _)) in H;
  vm_compute in H; discriminate H.

(** ** The summation loop *)

Section Loop.

Context {D : Type} `{Double D}.

Local Open Scope dbl_scope.

Lemma size_wrap_small (n : Z) :
  (0 <= n < 2 ^ SIZE_WIDTH)%Z -> size_wrap n = n.
Proof. intros Hn. unfold size_wrap. now apply Z.mod_small. Qed.

Lemma at_index_nat (waypoints : list (Waypoint D)) (i : nat) :
  at_index waypoints (Z.of_nat i) = nth_error waypoints i.
Proof.
  unfold at_index.
  destruct (Z.ltb_spec (Z.of_nat i) 0) as [Hneg | _]; [lia |].
  now rewrite Nat2Z.id.
Qed.

Lemma skipn_cons_nth (waypoints : list (Waypoint D)) :
  forall (i : nat) (wp : Waypoint D),
    nth_error waypoints i = Some wp ->
    skipn i waypoints = wp :: skipn (S i) waypoints.
Proof.
  induction waypoints as [| w ws IH]; intros [| i] wp Hnth; simpl in *;
    try discriminate.
  - now inversion Hnth.
  - now apply IH.
Qed.

(** From index [i], with [k] pairs left and more than [k] units of fuel,
    the loop ends normally with the sum over the remaining pairs. *)
Lemma sum_loop_from (waypoints : list (Waypoint D)) :
  (size waypoints <= 2 ^ SIZE_WIDTH)%Z ->
  forall (k fuel i : nat) (acc : D),
    (i + k + 1 = length waypoints)%nat ->
    (k < fuel)%nat ->
    sum_loop fuel waypoints (Z.of_nat i) acc
    = Done (path_sum (skipn i waypoints) acc).
Proof.
  intros Hsize. unfold size in Hsize.
  assert (Hpow : (0 < 2 ^ SIZE_WIDTH)%Z) by (now vm_compute).
  induction k as [| k IH]; intros fuel i acc Hlen Hfuel;
    (destruct fuel as [| fuel]; [lia |]); simpl;
    unfold size; rewrite size_wrap_small by lia.
  - destruct (Z.ltb_spec (Z.of_nat i) (Z.of_nat (length waypoints) - 1))
      as [Hlt | _]; [lia |].
    destruct (nth_error waypoints i) as [wp |] eqn:Hwp.
    + rewrite (skipn_cons_nth _ _ _ Hwp).
      rewrite (skipn_all2 waypoints) by lia. reflexivity.
    + apply nth_error_None in Hwp. lia.
  - destruct (Z.ltb_spec (Z.of_nat i) (Z.of_nat (length waypoints) - 1))
      as [_ | Hge]; [| lia].
    rewrite size_wrap_small by lia.
    replace (Z.of_nat i + 1)%Z with (Z.of_nat (S i)) by lia.
    rewrite !at_index_nat.
    destruct (nth_error waypoints i) as [wp1 |] eqn:Hwp1;
      [| apply nth_error_None in Hwp1; lia].
    destruct (nth_error waypoints (S i)) as [wp2 |] eqn:Hwp2;
      [| apply nth_error_None in Hwp2; lia].
    rewrite IH by lia.
    rewrite (skipn_cons_nth _ _ _ Hwp1), (skipn_cons_nth _ _ _ Hwp2).
    reflexivity.
Qed.

(** On a vector that is not empty the loop of [main] terminates without
    leaving the vector, whenever it is given at least as much fuel as the
    vector has elements. *)
Lemma sum_loop_enough_fuel (waypoints : list (Waypoint D)) (fuel : nat) :
  waypoints <> [] ->
  (size waypoints <= 2 ^ SIZE_WIDTH)%Z ->
  (length waypoints <= fuel)%nat ->
  sum_loop fuel waypoints 0 (of_int 0)
  = Done (path_sum waypoints (of_int 0)).
Proof.
  intros Hne Hsize Hfuel.
  destruct waypoints as [| wp ws]; [congruence |].
  apply (sum_loop_from (wp :: ws) Hsize (length ws) fuel 0%nat);
    simpl in *; lia.
Qed.

Lemma pathLength_nonempty (waypoints : list (Waypoint D)) :
  waypoints <> [] ->
  (size waypoints <= 2 ^ SIZE_WIDTH)%Z ->
  pathLength waypoints = Done (path_sum waypoints (of_int 0)).
Proof.
  intros Hne Hsize. unfold pathLength.
  apply sum_loop_enough_fuel; auto.
Qed.

(** A single waypoint: [size() - 1] is 0 and the body never runs. *)
Lemma pathLength_singleton (wp : Waypoint D) :
  pathLength [wp] = Done (of_int 0).
Proof. reflexivity. Qed.

(** A run over a non-empty path ends normally, with the four values of
    the source. *)
Lemma run_nonempty (a b c : D) (waypoints : list (Waypoint D)) :
  waypoints <> [] ->
  (size waypoints <= 2 ^ SIZE_WIDTH)%Z ->
  run a b c waypoints
  = let total := path_sum waypoints (of_int 0) in
    let optimum := findOptimalSpeedAndAltitude a b in
    Done (mkReport total (fst optimum) (snd optimum)
            (energyConsumption (fst optimum) (snd optimum) a b c * total)).
Proof.
  intros Hne Hsize. unfold run.
  rewrite (pathLength_nonempty waypoints Hne Hsize).
  destruct (findOptimalSpeedAndAltitude a b) as [v h]. reflexivity.
Qed.

(** The fuel of [pathLength] never runs out. *)
Lemma pathLength_fuel (waypoints : list (Waypoint D)) :
  (size waypoints <= 2 ^ SIZE_WIDTH)%Z ->
  pathLength waypoints <> OutOfFuel.
Proof.
  intros Hsize. destruct waypoints as [| wp ws].
  - discriminate.
  - rewrite pathLength_nonempty by (assumption || discriminate).
    discriminate.
Qed.

End Loop.

(** ** Facts about binary64 arithmetic *)

Module F64Facts.

Import F64.
Local Open Scope float_scope.

Lemma binary_round_aux_sign (s1 s2 : bool) (m e : Z) (l : location) :
  same_magnitude (binary_round_aux prec emax s1 m e l)
                 (binary_round_aux prec emax s2 m e l).
Proof.
  unfold same_magnitude, binary_round_aux.
  destruct (shr_fexp prec emax m e l) as [mrs' e'].
  destruct (shr_fexp prec emax _ e' loc_Exact) as [mrs'' e''].
  destruct (shr_m mrs'') as [| p | p]; [reflexivity | | reflexivity].
  destruct (e'' <=? emax - prec)%Z; reflexivity.
Qed.

Lemma binary_round_sign (s1 s2 : bool) (m : positive) (e : Z) :
  same_magnitude (binary_round prec emax s1 m e)
                 (binary_round prec emax s2 m e).
Proof.
  unfold binary_round.
  destruct (shl_align m e _) as [mz ez].
  apply binary_round_aux_sign.
Qed.

Lemma binary_normalize_opp (m e : Z) :
  same_magnitude (binary_normalize prec emax m e false)
                 (binary_normalize prec emax (- m) e false).
Proof.
  destruct m as [| p | p]; simpl; [reflexivity | |]; apply binary_round_sign.
Qed.

(** [x - y] and [y - x] differ at most in the sign. *)
Lemma SFsub_swap (x y : spec_float) :
  same_magnitude (SF64sub x y) (SF64sub y x).
Proof.
  unfold SF64sub.
  destruct x as [sx | sx | | sx mx ex], y as [sy | sy | | sy my ey];
    try (destruct sx, sy; reflexivity); try reflexivity.
  unfold SFsub. rewrite (Z.min_comm ey ex).
  set (X := cond_Zopp sx _). set (Y := cond_Zopp sy _).
  replace (Y - X)%Z with (- (X - Y))%Z by lia.
  apply binary_normalize_opp.
Qed.

(** The square does not see the sign. *)
Lemma SFmul_square (x y : spec_float) :
  same_magnitude x y -> SF64mul x x = SF64mul y y.
Proof.
  unfold same_magnitude, SF64mul.
  destruct x as [sx | sx | | sx mx ex], y as [sy | sy | | sy my ey];
    simpl; intros Habs; try discriminate; try reflexivity;
    rewrite ?xorb_nilpotent; try reflexivity.
  inversion Habs; subst. reflexivity.
Qed.

Lemma square_sub_swap (x y : float) :
  (x - y) * (x - y) = (y - x) * (y - x).
Proof.
  by_spec. rewrite !mul_spec, !sub_spec.
  apply SFmul_square, SFsub_swap.
Qed.

Lemma square_opp (x : float) : (- x) * (- x) = x * x.
Proof.
  by_spec. rewrite !mul_spec, opp_spec.
  apply SFmul_square. unfold same_magnitude.
  destruct (Prim2SF x); reflexivity.
Qed.

(** *** Finite numbers *)

Lemma sub_diag (x : float) : finite x = true -> x - x = 0.
Proof.
  unfold finite. intros Hfin. by_spec. rewrite sub_spec.
  change (Prim2SF 0) with (S754_zero false).
  destruct (Prim2SF x) as [s | s | | s m e]; try discriminate.
  - destruct s; reflexivity.
  - unfold SF64sub, SFsub. now rewrite Z.sub_diag.
Qed.

(** What the test [a != 0] keeps the optimiser from: a quotient by zero
    is an infinity or a NaN, never a finite number. *)
Lemma div_zero_not_finite (x : float) : finite (x / 0) = false.
Proof.
  unfold finite. rewrite div_spec.
  change (Prim2SF 0) with (S754_zero false).
  destruct (Prim2SF x); reflexivity.
Qed.

(** *** Comparisons with zero *)

Lemma positive_is_nonzero (x : float) : (0 <? x) = true -> (x =? 0) = false.
Proof.
  rewrite ltb_spec, eqb_spec.
  change (Prim2SF 0) with (S754_zero false).
  unfold SFltb, SFeqb.
  destruct (Prim2SF x) as [s | s | | s m e]; try (destruct s); simpl;
    congruence.
Qed.

(** *** NaN *)

Lemma sqrt_negative (x : float) : (x <? 0) = true -> PrimFloat.sqrt x = nan.
Proof.
  rewrite ltb_spec. intros Hneg. by_spec. rewrite sqrt_spec.
  change (Prim2SF 0) with (S754_zero false) in Hneg.
  change (Prim2SF nan) with S754_nan.
  unfold SF64sqrt, SFltb in *.
  destruct (Prim2SF x) as [s | s | | s m e]; try (destruct s);
    simpl in *; congruence.
Qed.

Lemma mul_nan_r (x : float) : x * nan = nan.
Proof.
  by_spec. rewrite mul_spec. change (Prim2SF nan) with S754_nan.
  destruct (Prim2SF x); reflexivity.
Qed.

Lemma mul_nan_l (x : float) : nan * x = nan.
Proof.
  by_spec. rewrite mul_spec. change (Prim2SF nan) with S754_nan.
  reflexivity.
Qed.

Lemma add_nan_l (x : float) : nan + x = nan.
Proof.
  by_spec. rewrite add_spec. change (Prim2SF nan) with S754_nan.
  reflexivity.
Qed.

End F64Facts.

(** ** The program in binary64 *)

Module F64Program.

Import F64 F64Facts.
Local Open Scope float_scope.

Lemma distance_f64 (p q : Waypoint float) :
  distance p q
  = PrimFloat.sqrt ((q.(x) - p.(x)) * (q.(x) - p.(x))
                    + (q.(y) - p.(y)) * (q.(y) - p.(y))
                    + (q.(z) - p.(z)) * (q.(z) - p.(z))).
Proof. reflexivity. Qed.

Lemma energy_f64 (v h a b c : float) :
  energyConsumption v h a b c = a * (v * v) + b * h + c.
Proof. reflexivity. Qed.

Lemma optimum_f64 (a b : float) :
  findOptimalSpeedAndAltitude a b
  = (if negb (a =? 0) then PrimFloat.sqrt (b / (2 * a)) else 0, 100).
Proof. reflexivity. Qed.

Lemma distance_swap (p q : Waypoint float) : distance p q = distance q p.
Proof.
  rewrite !distance_f64.
  now rewrite (square_sub_swap q.(x)), (square_sub_swap q.(y)),
    (square_sub_swap q.(z)).
Qed.

Lemma distance_self (p : Waypoint float) :
  finite_waypoint p = true -> distance p p = 0.
Proof.
  unfold finite_waypoint. intros Hfin.
  apply andb_prop in Hfin as [Hxy Hz]. apply andb_prop in Hxy as [Hx Hy].
  rewrite distance_f64, !sub_diag by assumption. reflexivity.
Qed.

Lemma energy_even (v h a b c : float) :
  energyConsumption (- v) h a b c = energyConsumption v h a b c.
Proof. rewrite !energy_f64. now rewrite square_opp. Qed.

Lemma energy_nan (h a b c : float) : energyConsumption nan h a b c = nan.
Proof.
  rewrite energy_f64.
  now rewrite (mul_nan_l nan), mul_nan_r, !add_nan_l.
Qed.

Lemma optimum_nonzero_f64 (a b : float) :
  (a =? 0) = false ->
  findOptimalSpeedAndAltitude a b = (PrimFloat.sqrt (b / (2 * a)), 100).
Proof. intros Ha. rewrite optimum_f64, Ha. reflexivity. Qed.

Lemma optimum_zero_f64 (a b : float) :
  (a =? 0) = true -> findOptimalSpeedAndAltitude a b = (0, 100).
Proof. intros Ha. rewrite optimum_f64, Ha. reflexivity. Qed.

Lemma run_negative_quotient (a b c : float) (ws : list (Waypoint float)) :
  (a =? 0) = false ->
  (b / (2 * a) <? 0) = true ->
  ws <> [] ->
  (size ws <= 2 ^ SIZE_WIDTH)%Z ->
  run a b c ws = Done (mkReport (path_sum ws 0) nan 100 nan).
Proof.
  intros Ha Hneg Hne Hsize.
  rewrite (run_nonempty a b c ws Hne Hsize).
  rewrite (optimum_nonzero_f64 a b Ha), (sqrt_negative _ Hneg).
  cbn [fst snd]. rewrite energy_nan.
  cbn [mul double_float]. rewrite mul_nan_l.
  reflexivity.
Qed.

(** Coefficients of opposite signs do not always give a negative quotient:
    it can underflow to the negative zero, whose square root is the
    negative zero and no NaN. *)
Lemma optimum_quotient_underflow :
  (-1e300 <? 0) = true
  /\ (0 <? 0x1p-1074) = true
  /\ 0x1p-1074 / (2 * -1e300) = -0
  /\ findOptimalSpeedAndAltitude (-1e300) 0x1p-1074 = (-0, 100).
Proof. repeat split; vm_compute; reflexivity. Qed.

(** A path of one waypoint has total distance 0 and, when the energy per
    unit distance is finite, total energy 0. *)
Lemma run_singleton_f64 (a b c : float) (wp : Waypoint float) :
  run a b c [wp]
  = Done (mkReport 0 (fst (findOptimalSpeedAndAltitude a b)) 100
            (energyConsumption (fst (findOptimalSpeedAndAltitude a b)) 100
                               a b c * 0)).
Proof. rewrite run_nonempty by (discriminate || (now vm_compute)). reflexivity. Qed.

End F64Program.

(** ** Facts about exact arithmetic *)

Module ExactFacts.

Import Exact.
Local Open Scope R_scope.

Lemma distance_norm3 (p q : Waypoint R) :
  distance p q = norm3 (q.(x) - p.(x)) (q.(y) - p.(y)) (q.(z) - p.(z)).
Proof. reflexivity. Qed.

Lemma sum_squares_nonneg (x y z : R) : 0 <= x * x + y * y + z * z.
Proof. nra. Qed.

Lemma norm3_nonneg (x y z : R) : 0 <= norm3 x y z.
Proof. apply sqrt_pos. Qed.

Lemma norm3_square (x y z : R) :
  norm3 x y z * norm3 x y z = x * x + y * y + z * z.
Proof. apply sqrt_sqrt, sum_squares_nonneg. Qed.

Lemma norm3_zero (x y z : R) :
  norm3 x y z = 0 <-> x = 0 /\ y = 0 /\ z = 0.
Proof.
  split.
  - intros Hzero. apply sqrt_eq_0 in Hzero; [| apply sum_squares_nonneg].
    repeat split; nra.
  - intros (-> & -> & ->). unfold norm3.
    replace (0 * 0 + 0 * 0 + 0 * 0) with 0 by ring. apply sqrt_0.
Qed.

(** Cauchy-Schwarz in three dimensions, in the form the triangle
    inequality uses. *)
Lemma dot_le_norms (x1 y1 z1 x2 y2 z2 : R) :
  x1 * x2 + y1 * y2 + z1 * z2 <= norm3 x1 y1 z1 * norm3 x2 y2 z2.
Proof.
  pose proof (norm3_nonneg x1 y1 z1) as Hn1.
  pose proof (norm3_nonneg x2 y2 z2) as Hn2.
  pose proof (norm3_square x1 y1 z1) as Hs1.
  pose proof (norm3_square x2 y2 z2) as Hs2.
  set (n1 := norm3 x1 y1 z1) in *. set (n2 := norm3 x2 y2 z2) in *.
  set (d := x1 * x2 + y1 * y2 + z1 * z2).
  destruct (Rle_or_lt d (n1 * n2)) as [Hle | Hgt]; [exact Hle | exfalso].
  assert (Hprod : 0 <= n1 * n2) by (apply Rmult_le_pos; assumption).
  assert (Hsq : (n1 * n2) * (n1 * n2) < d * d) by nra.
  assert (Hlagrange :
            d * d <= (x1 * x1 + y1 * y1 + z1 * z1) * (x2 * x2 + y2 * y2 + z2 * z2)).
  { unfold d.
    pose proof (Rle_0_sqr (x1 * y2 - y1 * x2)) as H1.
    pose proof (Rle_0_sqr (x1 * z2 - z1 * x2)) as H2.
    pose proof (Rle_0_sqr (y1 * z2 - z1 * y2)) as H3.
    unfold Rsqr in *. nra. }
  rewrite <- Hs1, <- Hs2 in Hlagrange. nra.
Qed.

Lemma norm3_triangle (x1 y1 z1 x2 y2 z2 : R) :
  norm3 (x1 + x2) (y1 + y2) (z1 + z2) <= norm3 x1 y1 z1 + norm3 x2 y2 z2.
Proof.
  pose proof (norm3_nonneg x1 y1 z1) as Hn1.
  pose proof (norm3_nonneg x2 y2 z2) as Hn2.
  pose proof (norm3_nonneg (x1 + x2) (y1 + y2) (z1 + z2)) as Hn.
  pose proof (norm3_square x1 y1 z1) as Hs1.
  pose proof (norm3_square x2 y2 z2) as Hs2.
  pose proof (norm3_square (x1 + x2) (y1 + y2) (z1 + z2)) as Hs.
  pose proof (dot_le_norms x1 y1 z1 x2 y2 z2) as Hdot.
  set (n1 := norm3 x1 y1 z1) in *. set (n2 := norm3 x2 y2 z2) in *.
  set (n := norm3 (x1 + x2) (y1 + y2) (z1 + z2)) in *.
  destruct (Rle_or_lt n (n1 + n2)) as [Hle | Hgt]; [exact Hle | exfalso].
  assert (Hsq : (n1 + n2) * (n1 + n2) < n * n) by nra.
  nra.
Qed.

Lemma waypoint_eq (p q : Waypoint R) :
  p.(x) = q.(x) -> p.(y) = q.(y) -> p.(z) = q.(z) -> p = q.
Proof. destruct p, q; simpl; intros; subst; reflexivity. Qed.

Lemma distance_symmetric (p q : Waypoint R) : distance p q = distance q p.
Proof.
  rewrite !distance_norm3. unfold norm3. f_equal. ring.
Qed.

Lemma distance_zero_iff (p q : Waypoint R) : distance p q = 0 <-> p = q.
Proof.
  rewrite distance_norm3, norm3_zero. split.
  - intros (Hx & Hy & Hz). apply waypoint_eq; lra.
  - intros ->. repeat split; lra.
Qed.

Lemma distance_triangle (p q r : Waypoint R) :
  distance p r <= distance p q + distance q r.
Proof.
  rewrite !distance_norm3.
  replace (r.(x) - p.(x)) with ((q.(x) - p.(x)) + (r.(x) - q.(x))) by ring.
  replace (r.(y) - p.(y)) with ((q.(y) - p.(y)) + (r.(y) - q.(y))) by ring.
  replace (r.(z) - p.(z)) with ((q.(z) - p.(z)) + (r.(z) - q.(z))) by ring.
  apply norm3_triangle.
Qed.

Lemma energy_exact (v h a b c : R) :
  energyConsumption v h a b c = a * (v * v) + b * h + c.
Proof. reflexivity. Qed.

Lemma neqb_zero_true (a : R) : a <> 0 -> neqb a (of_int 0) = true.
Proof.
  intros Ha. simpl. destruct (Req_dec_T a 0) as [Heq | _]; [contradiction | reflexivity].
Qed.

Lemma neqb_zero_false : neqb 0 (of_int 0) = false.
Proof.
  simpl. destruct (Req_dec_T 0 0) as [_ | Hne]; [reflexivity | contradiction].
Qed.

Lemma optimum_nonzero_exact (a b : R) :
  a <> 0 ->
  findOptimalSpeedAndAltitude a b = (R_sqrt.sqrt (b / (2 * a)), 100).
Proof.
  intros Ha. unfold findOptimalSpeedAndAltitude.
  rewrite (neqb_zero_true a Ha). reflexivity.
Qed.

Lemma optimum_zero_exact (b : R) : findOptimalSpeedAndAltitude 0 b = (0, 100).
Proof.
  unfold findOptimalSpeedAndAltitude. rewrite neqb_zero_false. reflexivity.
Qed.

(** A path of one waypoint has total distance 0 and total energy 0. *)
Lemma run_singleton_exact (a b c : R) (wp : Waypoint R) :
  run a b c [wp]
  = Done (mkReport 0 (fst (findOptimalSpeedAndAltitude a b)) 100 0).
Proof.
  rewrite run_nonempty by (discriminate || (now vm_compute)).
  cbn zeta. cbn [path_sum of_int double_real].
  rewrite (Rmult_0_r (energyConsumption _ _ a b c)). reflexivity.
Qed.

(** Square roots of the reference scenario. *)
Lemma sqrt_of_square (x y : R) : 0 <= y -> x = y * y -> R_sqrt.sqrt x = y.
Proof. intros Hy ->. now apply sqrt_square. Qed.

Lemma sqrt_between (x lo hi : R) :
  0 <= lo -> 0 <= hi -> lo * lo < x -> x < hi * hi ->
  lo < R_sqrt.sqrt x < hi.
Proof.
  intros Hlo Hhi Hlow Hhigh.
  assert (Hx : 0 <= x) by nra.
  pose proof (sqrt_pos x) as Hpos.
  pose proof (sqrt_sqrt x Hx) as Hsq.
  split.
  - destruct (Rlt_or_le lo (R_sqrt.sqrt x)) as [H | H]; [exact H | exfalso; nra].
  - destruct (Rlt_or_le (R_sqrt.sqrt x) hi) as [H | H]; [exact H | exfalso; nra].
Qed.

End ExactFacts.

(** ** The reference scenario in exact arithmetic *)

Module Scenario.

Import ExactFacts.
Local Open Scope R_scope.

Lemma exact_path_length :
  pathLength Exact.waypoints
  = Done (150 + R_sqrt.sqrt 13400 + R_sqrt.sqrt 33400).
Proof.
  rewrite pathLength_nonempty;
    [| discriminate | apply Z.leb_le; reflexivity].
  unfold Exact.waypoints, path_sum. rewrite !distance_norm3.
  unfold Exact.norm3. cbn [x y z of_int add Exact.double_real].
  f_equal.
  replace ((100 - 0) * (100 - 0) + (100 - 0) * (100 - 0)
           + (150 - 100) * (150 - 100)) with (150 * 150) by ring.
  replace ((200 - 100) * (200 - 100) + (50 - 100) * (50 - 100)
           + (120 - 150) * (120 - 150)) with 13400 by ring.
  replace ((300 - 200) * (300 - 200) + (200 - 50) * (200 - 50)
           + (150 - 120) * (150 - 120)) with 33400 by ring.
  rewrite sqrt_square by lra. ring.
Qed.

Lemma exact_optimum :
  findOptimalSpeedAndAltitude Exact.a Exact.b = (1 / 2, 100).
Proof.
  unfold Exact.a, Exact.b. rewrite optimum_nonzero_exact by lra.
  f_equal. apply sqrt_of_square; lra.
Qed.

Lemma exact_energy_per_unit :
  energyConsumption (1 / 2) 100 Exact.a Exact.b Exact.c = 15.025.
Proof.
  rewrite energy_exact. unfold Exact.a, Exact.b, Exact.c. lra.
Qed.

Lemma exact_main :
  Exact.main
  = Done (mkReport (150 + R_sqrt.sqrt 13400 + R_sqrt.sqrt 33400)
                   (1 / 2) 100
                   (15.025 * (150 + R_sqrt.sqrt 13400 + R_sqrt.sqrt 33400))).
Proof.
  unfold Exact.main, run.
  rewrite exact_path_length, exact_optimum, exact_energy_per_unit.
  reflexivity.
Qed.

Lemma exact_total_distance_bounds :
  448.515 < 150 + R_sqrt.sqrt 13400 + R_sqrt.sqrt 33400 < 448.516.
Proof.
  assert (H1 : 115.75836 < R_sqrt.sqrt 13400 < 115.75837)
    by (apply sqrt_between; lra).
  assert (H2 : 182.75666 < R_sqrt.sqrt 33400 < 182.75667)
    by (apply sqrt_between; lra).
  lra.
Qed.

End Scenario.

(** ** Signs in binary64 *)

Module F64Sign.

Import F64 F64Facts.
Local Open Scope float_scope.

Lemma binary_round_aux_nonneg (m e : Z) (l : location) :
  nonneg_SF (binary_round_aux prec emax false m e l) = true.
Proof.
  unfold binary_round_aux.
  destruct (shr_fexp prec emax m e l) as [mrs' e'].
  destruct (shr_fexp prec emax _ e' loc_Exact) as [mrs'' e''].
  destruct (shr_m mrs'') as [| p | p]; [reflexivity | | reflexivity].
  destruct (e'' <=? emax - prec)%Z; reflexivity.
Qed.

Lemma binary_round_nonneg (m : positive) (e : Z) :
  nonneg_SF (binary_round prec emax false m e) = true.
Proof.
  unfold binary_round.
  destruct (shl_align m e _) as [mz ez].
  apply binary_round_aux_nonneg.
Qed.

Lemma SFmul_square_nonneg (x : spec_float) : nonneg_SF (SF64mul x x) = true.
Proof.
  unfold SF64mul.
  destruct x as [s | s | | s m e]; simpl; rewrite ?xorb_nilpotent;
    try reflexivity.
  apply binary_round_aux_nonneg.
Qed.

Lemma SFadd_nonneg (x y : spec_float) :
  nonneg_SF x = true -> nonneg_SF y = true -> nonneg_SF (SF64add x y) = true.
Proof.
  unfold SF64add.
  destruct x as [sx | sx | | sx mx ex], y as [sy | sy | | sy my ey];
    simpl; intros Hx Hy; try reflexivity;
    try (apply negb_true_iff in Hx; subst sx);
    try (apply negb_true_iff in Hy; subst sy);
    try reflexivity.
  apply binary_round_nonneg.
Qed.

Lemma SFsqrt_nonneg (x : spec_float) :
  nonneg_SF x = true -> nonneg_SF (SF64sqrt x) = true.
Proof.
  unfold SF64sqrt.
  destruct x as [s | s | | s m e]; simpl; intros Hx;
    try (apply negb_true_iff in Hx; subst s); try reflexivity.
  destruct (SFsqrt_core_binary prec emax (Z.pos m) e) as [[mz ez] lz].
  apply binary_round_aux_nonneg.
Qed.

Lemma nonneg_not_negative (x : float) : nonneg x = true -> (x <? 0) = false.
Proof.
  unfold nonneg. rewrite ltb_spec.
  change (Prim2SF 0) with (S754_zero false). unfold SFltb.
  destruct (Prim2SF x) as [s | s | | s m e]; simpl; intros Hx;
    try (apply negb_true_iff in Hx; subst s); reflexivity.
Qed.

Lemma square_nonneg (x : float) : nonneg (x * x) = true.
Proof. unfold nonneg. rewrite mul_spec. apply SFmul_square_nonneg. Qed.

Lemma add_nonneg (x y : float) :
  nonneg x = true -> nonneg y = true -> nonneg (x + y) = true.
Proof. unfold nonneg. rewrite add_spec. apply SFadd_nonneg. Qed.

Lemma sqrt_nonneg (x : float) :
  nonneg x = true -> nonneg (PrimFloat.sqrt x) = true.
Proof. unfold nonneg. rewrite sqrt_spec. apply SFsqrt_nonneg. Qed.

(** The square root of any number is not below zero: of a negative number
    it is a NaN, of the negative zero the negative zero. *)
Lemma sqrt_not_negative (x : float) : (PrimFloat.sqrt x <? 0) = false.
Proof.
  rewrite ltb_spec, sqrt_spec.
  change (Prim2SF 0) with (S754_zero false).
  destruct (Prim2SF x) as [s | s | | s m e] eqn:Hx;
    try (destruct s); try reflexivity.
  assert (Hnn : nonneg_SF (SF64sqrt (S754_finite false m e)) = true)
    by (now apply SFsqrt_nonneg).
  unfold SFltb.
  destruct (SF64sqrt (S754_finite false m e)) as [s | s | | s m' e'];
    simpl in *; try (apply negb_true_iff in Hnn; subst s); reflexivity.
Qed.

Lemma distance_nonneg (p q : Waypoint float) : nonneg (distance p q) = true.
Proof.
  rewrite F64Program.distance_f64.
  apply sqrt_nonneg. repeat apply add_nonneg; apply square_nonneg.
Qed.

Lemma path_sum_nonneg (ws : list (Waypoint float)) :
  forall acc : float, nonneg acc = true -> nonneg (path_sum ws acc) = true.
Proof.
  induction ws as [| p ws IH]; intros acc Hacc; [exact Hacc |].
  destruct ws as [| q ws]; [exact Hacc |].
  change (path_sum (p :: q :: ws) acc)
    with (path_sum (q :: ws) (acc + distance p q)).
  apply IH, add_nonneg; [exact Hacc | apply distance_nonneg].
Qed.

End F64Sign.

(** ** NaN in binary64 *)

Module F64NaN.

Import F64 F64Facts.
Local Open Scope float_scope.

Lemma add_nan_r (u : float) : u + nan = nan.
Proof.
  by_spec. rewrite add_spec. change (Prim2SF nan) with S754_nan.
  destruct (Prim2SF u); reflexivity.
Qed.

Lemma sub_nan_l (u : float) : nan - u = nan.
Proof.
  by_spec. rewrite sub_spec. change (Prim2SF nan) with S754_nan.
  reflexivity.
Qed.

Lemma sub_nan_r (u : float) : u - nan = nan.
Proof.
  by_spec. rewrite sub_spec. change (Prim2SF nan) with S754_nan.
  destruct (Prim2SF u); reflexivity.
Qed.

Lemma div_nan_l (u : float) : nan / u = nan.
Proof.
  by_spec. rewrite div_spec. change (Prim2SF nan) with S754_nan.
  reflexivity.
Qed.

Lemma div_nan_r (u : float) : u / nan = nan.
Proof.
  by_spec. rewrite div_spec. change (Prim2SF nan) with S754_nan.
  destruct (Prim2SF u); reflexivity.
Qed.

Lemma sqrt_nan : PrimFloat.sqrt nan = nan.
Proof. reflexivity. Qed.

Ltac nan_simpl :=
  repeat (rewrite ?mul_nan_l, ?mul_nan_r, ?add_nan_l, ?add_nan_r,
            ?sub_nan_l, ?sub_nan_r, ?div_nan_l, ?div_nan_r, ?sqrt_nan).

Lemma distance_nan_l (p q : Waypoint float) :
  nan_waypoint p -> distance p q = nan.
Proof.
  rewrite F64Program.distance_f64.
  intros [Hp | [Hp | Hp]]; rewrite Hp; now nan_simpl.
Qed.

Lemma distance_nan_r (p q : Waypoint float) :
  nan_waypoint q -> distance p q = nan.
Proof.
  rewrite F64Program.distance_f64.
  intros [Hq | [Hq | Hq]]; rewrite Hq; now nan_simpl.
Qed.

Lemma path_sum_nan_acc (ws : list (Waypoint float)) : path_sum ws nan = nan.
Proof.
  induction ws as [| p ws IH]; [reflexivity |].
  destruct ws as [| q ws]; [reflexivity |].
  change (path_sum (p :: q :: ws) nan)
    with (path_sum (q :: ws) (nan + distance p q)).
  now rewrite add_nan_l.
Qed.

(** A NaN coordinate anywhere on a path of two or more waypoints makes the
    whole sum a NaN. *)
Lemma path_sum_nan (ws : list (Waypoint float)) :
  forall (acc : float) (p : Waypoint float),
    In p ws -> nan_waypoint p -> (2 <= length ws)%nat ->
    path_sum ws acc = nan.
Proof.
  induction ws as [| w ws IH]; intros acc p Hin Hnan Hlen; [easy |].
  destruct ws as [| w' ws]; [simpl in Hlen; lia |].
  change (path_sum (w :: w' :: ws) acc)
    with (path_sum (w' :: ws) (acc + distance w w')).
  destruct Hin as [-> | Hin].
  - rewrite (distance_nan_l p w' Hnan), add_nan_r. apply path_sum_nan_acc.
  - destruct ws as [| w'' ws].
    + destruct Hin as [-> | []].
      rewrite (distance_nan_r w p Hnan), add_nan_r. reflexivity.
    + apply (IH _ p Hin Hnan). simpl. lia.
Qed.

Lemma energy_nan_argument (v h a b c : float) :
  v = nan \/ h = nan \/ a = nan \/ b = nan \/ c = nan ->
  energyConsumption v h a b c = nan.
Proof.
  rewrite F64Program.energy_f64.
  intros [Hn | [Hn | [Hn | [Hn | Hn]]]]; rewrite Hn; now nan_simpl.
Qed.

Lemma nan_neq_zero : (nan =? 0) = false.
Proof. reflexivity. Qed.

Lemma optimum_nan_a (b : float) :
  findOptimalSpeedAndAltitude nan b = (nan, 100).
Proof.
  rewrite (F64Program.optimum_nonzero_f64 nan b nan_neq_zero).
  now nan_simpl.
Qed.

Lemma optimum_nan_b (a : float) :
  (a =? 0) = false -> findOptimalSpeedAndAltitude a nan = (nan, 100).
Proof.
  intros Ha. rewrite (F64Program.optimum_nonzero_f64 a nan Ha).
  now nan_simpl.
Qed.

(** *** Products with zero *)

Lemma mul_zero_finite (u : float) :
  finite u = true -> (u * 0 =? 0) = true.
Proof.
  unfold finite. rewrite eqb_spec, mul_spec.
  change (Prim2SF 0) with (S754_zero false).
  destruct (Prim2SF u) as [s | s | | s m e]; try discriminate;
    destruct s; reflexivity.
Qed.

Lemma mul_zero_not_finite (u : float) :
  finite u = false -> u * 0 = nan.
Proof.
  unfold finite. intros Hu. by_spec. rewrite mul_spec.
  change (Prim2SF 0) with (S754_zero false).
  change (Prim2SF nan) with S754_nan.
  destruct (Prim2SF u) as [s | s | | s m e]; try discriminate; reflexivity.
Qed.

End F64NaN.

(** ** Paths *)

Section PathGeneric.

Context {D : Type} `{Double D}.

Local Open Scope dbl_scope.

Lemma path_sum_cons2 (p q : Waypoint D) (ws : list (Waypoint D)) (acc : D) :
  path_sum (p :: q :: ws) acc = path_sum (q :: ws) (acc + distance p q).
Proof. reflexivity. Qed.

(** The sum over a path extended by one waypoint is the sum over the path
    plus the new last segment. *)
Lemma path_sum_snoc (ws : list (Waypoint D)) :
  forall (p q : Waypoint D) (acc : D),
    path_sum (ws ++ [p; q]) acc
    = path_sum (ws ++ [p]) acc + distance p q.
Proof.
  induction ws as [| w ws IH]; intros p q acc; [reflexivity |].
  destruct ws as [| w' ws].
  - reflexivity.
  - change ((w :: w' :: ws) ++ [p; q]) with (w :: w' :: (ws ++ [p; q])).
    change ((w :: w' :: ws) ++ [p]) with (w :: w' :: (ws ++ [p])).
    rewrite !path_sum_cons2. apply (IH p q).
Qed.

Lemma size_app_le (ws1 ws2 : list (Waypoint D)) :
  (size (ws1 ++ ws2) <= 2 ^ SIZE_WIDTH)%Z ->
  (length ws2 >= 1)%nat ->
  forall w : Waypoint D, (size (ws1 ++ [w]) <= 2 ^ SIZE_WIDTH)%Z.
Proof.
  unfold size. intros Hsize Hlen w.
  rewrite length_app in Hsize. rewrite length_app. cbn [length]. lia.
Qed.

End PathGeneric.

Module ExactPath.

Import Exact ExactFacts.
Local Open Scope R_scope.

Lemma path_sum_acc (ws : list (Waypoint R)) :
  forall acc : R, path_sum ws acc = acc + path_sum ws 0.
Proof.
  induction ws as [| p ws IH]; intros acc; [simpl; lra |].
  destruct ws as [| q ws]; [simpl; lra |].
  rewrite !path_sum_cons2.
  rewrite (IH (add acc (distance p q))), (IH (add 0 (distance p q))).
  cbn [add double_real]. lra.
Qed.

Lemma path_sum_cons_exact (p q : Waypoint R) (ws : list (Waypoint R)) :
  path_sum (p :: q :: ws) 0 = distance p q + path_sum (q :: ws) 0.
Proof.
  rewrite path_sum_cons2, path_sum_acc. cbn [add double_real]. lra.
Qed.

Lemma distance_nonneg_exact (p q : Waypoint R) : 0 <= distance p q.
Proof. rewrite distance_norm3. apply norm3_nonneg. Qed.

Lemma path_sum_nonneg_exact (ws : list (Waypoint R)) : 0 <= path_sum ws 0.
Proof.
  induction ws as [| p ws IH]; [simpl; lra |].
  destruct ws as [| q ws]; [simpl; lra |].
  rewrite path_sum_cons_exact.
  pose proof (distance_nonneg_exact p q). lra.
Qed.

Lemma last_cons (ws : list (Waypoint R)) :
  forall q d : Waypoint R, last (q :: ws) d = last ws q.
Proof.
  induction ws as [| w ws IH]; intros q d; [reflexivity |].
  change (last (q :: w :: ws) d) with (last (w :: ws) d).
  now rewrite !IH.
Qed.

(** No path is shorter than the straight line between its ends. *)
Lemma straight_line_le_path (ws : list (Waypoint R)) :
  forall p : Waypoint R, distance p (last ws p) <= path_sum (p :: ws) 0.
Proof.
  induction ws as [| q ws IH]; intros p.
  - cbn [last path_sum].
    rewrite (proj2 (distance_zero_iff p p) eq_refl). lra.
  - rewrite path_sum_cons_exact.
    rewrite last_cons.
    pose proof (IH q) as Hrest.
    pose proof (distance_triangle p q (last ws q)) as Htri.
    lra.
Qed.

(** Flying the path backwards covers the same distance. *)
Lemma path_sum_rev (ws : list (Waypoint R)) :
  path_sum (rev ws) 0 = path_sum ws 0.
Proof.
  induction ws as [| p ws IH]; [reflexivity |].
  destruct ws as [| q ws]; [reflexivity |].
  rewrite path_sum_cons_exact, <- IH.
  change (rev (p :: q :: ws)) with ((rev ws ++ [q]) ++ [p]).
  rewrite <- app_assoc. change ([q] ++ [p]) with [q; p].
  rewrite path_sum_snoc. cbn [add double_real].
  rewrite (distance_symmetric q p). simpl rev. lra.
Qed.

(** *** The energy at the optimum *)

Lemma optimum_square (a b : R) :
  0 < a -> 0 <= b ->
  a * (fst (findOptimalSpeedAndAltitude a b)
       * fst (findOptimalSpeedAndAltitude a b)) = b / 2.
Proof.
  intros Ha Hb. rewrite optimum_nonzero_exact by lra. cbn [fst].
  rewrite sqrt_sqrt.
  - field. lra.
  - unfold Rdiv. apply Rmult_le_pos; [exact Hb |].
    apply Rlt_le, Rinv_0_lt_compat. lra.
Qed.

Lemma optimum_altitude (a b : R) :
  snd (findOptimalSpeedAndAltitude a b) = 100.
Proof.
  unfold findOptimalSpeedAndAltitude. reflexivity.
Qed.

Lemma energy_at_optimum (a b c : R) :
  0 < a -> 0 <= b ->
  energyConsumption (fst (findOptimalSpeedAndAltitude a b))
                    (snd (findOptimalSpeedAndAltitude a b)) a b c
  = b / 2 + 100 * b + c.
Proof.
  intros Ha Hb. rewrite energy_exact, optimum_altitude.
  rewrite (optimum_square a b Ha Hb). lra.
Qed.

End ExactPath.

(** ** The square root in binary64 *)

Module F64Sqrt.

Import F64 F64Facts.
Local Open Scope float_scope.

Lemma iter_pos_invariant {A : Type} (P : A -> Prop) (f : A -> A) :
  (forall u, P u -> P (f u)) ->
  forall (n : positive) (u : A), P u -> P (iter_pos f n u).
Proof.
  intros Hstep. induction n as [n IH | n IH |]; intros u Hu; simpl; auto.
Qed.

Lemma shr_1_nonneg (mrs : shr_record) :
  (0 <= shr_m mrs)%Z -> (0 <= shr_m (shr_1 mrs))%Z.
Proof.
  destruct mrs as [m r s]. simpl.
  destruct m as [| [p | p |] | p]; simpl; lia.
Qed.

Lemma shr_fexp_nonneg (m e : Z) (l : location) :
  (0 <= m)%Z -> (0 <= shr_m (fst (shr_fexp prec emax m e l)))%Z.
Proof.
  intros Hm. unfold shr_fexp, shr.
  assert (Hrec : (0 <= shr_m (shr_record_of_loc m l))%Z)
    by (destruct l as [| []]; exact Hm).
  destruct (fexp prec emax (Zdigits2 m + e) - e)%Z as [| n | n];
    cbn [fst]; try exact Hrec.
  apply (iter_pos_invariant (fun u => (0 <= shr_m u)%Z)); [| exact Hrec].
  exact shr_1_nonneg.
Qed.

Lemma round_nearest_even_nonneg (m : Z) (l : location) :
  (0 <= m)%Z -> (0 <= round_nearest_even m l)%Z.
Proof.
  intros Hm. unfold round_nearest_even.
  destruct l as [| []]; try lia. destruct (Z.even m); lia.
Qed.

(** Rounding a non-negative mantissa never gives a NaN. *)
Lemma binary_round_aux_not_nan (s : bool) (m e : Z) (l : location) :
  (0 <= m)%Z -> binary_round_aux prec emax s m e l <> S754_nan.
Proof.
  intros Hm. unfold binary_round_aux.
  pose proof (shr_fexp_nonneg m e l Hm) as H1.
  destruct (shr_fexp prec emax m e l) as [mrs' e']. cbn [fst] in H1.
  pose proof (shr_fexp_nonneg _ e' loc_Exact
                (round_nearest_even_nonneg _ (loc_of_shr_record mrs') H1))
    as H2.
  destruct (shr_fexp prec emax _ e' loc_Exact) as [mrs'' e''].
  cbn [fst] in H2.
  destruct (shr_m mrs'') as [| p | p]; [discriminate | | lia].
  destruct (e'' <=? emax - prec)%Z; discriminate.
Qed.

Lemma SFsqrt_core_nonneg (m : positive) (e : Z) :
  (0 <= fst (fst (SFsqrt_core_binary prec emax (Z.pos m) e)))%Z.
Proof.
  unfold SFsqrt_core_binary.
  set (m' := match (e - 2 * _)%Z with
             | Z0 => Z.pos m | Zpos _ => _ | Zneg _ => 0%Z end).
  pose proof (Z.sqrtrem_sqrt m') as Hfst.
  destruct (Z.sqrtrem m') as [q r]. cbn [fst] in *. subst q.
  apply Z.sqrt_nonneg.
Qed.

Lemma is_nan_iff (u : float) : Prim2SF u = S754_nan <-> u = nan.
Proof.
  split; [intros Hu; now by_spec | intros ->; reflexivity].
Qed.

(** The square root is a NaN exactly for a NaN and for the numbers below
    zero. *)
Lemma sqrt_nan_iff (u : float) :
  PrimFloat.sqrt u = nan <-> u = nan \/ (u <? 0) = true.
Proof.
  rewrite <- !is_nan_iff, ltb_spec, sqrt_spec.
  change (Prim2SF 0) with (S754_zero false).
  unfold SF64sqrt, SFltb.
  destruct (Prim2SF u) as [s | s | | s m e]; try (destruct s); simpl;
    try (split; [discriminate | intros [H | H]; discriminate]);
    try (split; [intros _; now right | reflexivity]);
    try (split; [intros _; now left | reflexivity]).
  split; [| intros [H | H]; discriminate].
  intros Hnan. exfalso.
  pose proof (SFsqrt_core_nonneg m e) as Hq.
  destruct (SFsqrt_core_binary prec emax (Z.pos m) e) as [[mz ez] lz].
  cbn [fst] in Hq.
  exact (binary_round_aux_not_nan false mz ez lz Hq Hnan).
Qed.

End F64Sqrt.

(** ** Runs in binary64 *)

Module F64Run.

Import F64 F64Facts F64Sign F64NaN.
Local Open Scope float_scope.

(** The loop keeps a total that is not negative. *)
Lemma sum_loop_nonneg (fuel : nat) (ws : list (Waypoint float)) :
  forall (i : Z) (acc d : float),
    nonneg acc = true -> sum_loop fuel ws i acc = Done d -> nonneg d = true.
Proof.
  induction fuel as [| fuel IH]; intros i acc d Hacc Hdone; [discriminate |].
  simpl in Hdone.
  destruct (i <? size_wrap (size ws - 1))%Z.
  - destruct (at_index ws i) as [wp1 |]; [| discriminate].
    destruct (at_index ws (size_wrap (i + 1))) as [wp2 |]; [| discriminate].
    apply (IH _ _ _ (add_nonneg _ _ Hacc (distance_nonneg wp1 wp2)) Hdone).
  - now inversion Hdone; subst.
Qed.

Lemma run_done_total (a b c : float) (ws : list (Waypoint float))
      (r : Report float) :
  run a b c ws = Done r -> pathLength ws = Done (totalDistance r).
Proof.
  unfold run. destruct (pathLength ws) as [d | j |]; try discriminate.
  destruct (findOptimalSpeedAndAltitude a b) as [v h].
  intros Hdone. now inversion Hdone.
Qed.

Lemma path_sum_hover (p : Waypoint float) (n : nat) :
  finite_waypoint p = true -> path_sum (repeat p n) 0 = 0.
Proof.
  intros Hfin. induction n as [| n IH]; [reflexivity |].
  destruct n as [| n]; [reflexivity |].
  change (path_sum (repeat p (S (S n))) 0)
    with (path_sum (repeat p (S n)) (0 + distance p p)).
  rewrite (F64Program.distance_self p Hfin). exact IH.
Qed.

End F64Run.

(** ** The claims *)

(** C1, as the code has it.  On the reference scenario [main] ends normally
    and prints total distance 448.515 (to three decimals), the sum
    150 + sqrt 13400 + sqrt 33400 of the three segment lengths, optimal
    velocity 0.5, optimal altitude 100 and total energy 15.025 times the
    total distance (6738.938 in binary64); the energy per unit distance at
    the optimum is 15.025.  In binary64 the values are the ones listed, in
    exact arithmetic the ones of the closed forms.  The three segments
    have lengths 150, 115.758 and 182.757. *)
Theorem C1_reference_scenario :
  F64.main
  = Done (mkReport 448.51503785287287 0.5 100 6738.9384437394147)%float
  /\ (distance (mkWaypoint 0 0 100) (mkWaypoint 100 100 150) = 150
      /\ distance (mkWaypoint 100 100 150) (mkWaypoint 200 50 120)
         = 115.75836902790225
      /\ distance (mkWaypoint 200 50 120) (mkWaypoint 300 200 150)
         = 182.75666882497066
      /\ 0 + 150 + 115.75836902790225 + 182.75666882497066
         = 448.51503785287287)%float
  /\ (energyConsumption 0.5 100 F64.a F64.b F64.c = 15.025)%float
  /\ (15.025 * 448.51503785287287 = 6738.9384437394147)%float
  /\ (exists d : R,
         Exact.main = Done (mkReport d (1 / 2) 100 (15.025 * d))%R
         /\ d = (150 + R_sqrt.sqrt 13400 + R_sqrt.sqrt 33400)%R
         /\ (448.515 < d < 448.516)%R)
  /\ (energyConsumption (1 / 2) 100 Exact.a Exact.b Exact.c = 15.025)%R.
Proof.
  split; [vm_compute; reflexivity |].
  split; [repeat split; vm_compute; reflexivity |].
  split; [vm_compute; reflexivity |].
  split; [vm_compute; reflexivity |].
  split; [| exact Scenario.exact_energy_per_unit].
  exists (150 + R_sqrt.sqrt 13400 + R_sqrt.sqrt 33400)%R.
  split; [exact Scenario.exact_main |].
  split; [reflexivity | exact Scenario.exact_total_distance_bounds].
Qed.

(** C1, as the claim has it, fails: the total distance [main] computes is
    not within 1 of 395.21, in binary64 or in exact arithmetic. *)
Lemma C1_total_distance_is_not_395 :
  ~ (exists r : Report float,
        F64.main = Done r
        /\ (394.21 <=? totalDistance r)%float = true
        /\ (totalDistance r <=? 396.21)%float = true)
  /\ ~ (exists r : Report R,
           Exact.main = Done r
           /\ (Rabs (totalDistance r - 395.21) <= 1)%R).
Proof.
  split.
  - intros (r & Hmain & _ & Hle).
    assert (Hr : r = (mkReport 448.51503785287287 0.5 100
                                6738.9384437394147)%float).
    { assert (Hval : F64.main
                     = Done (mkReport 448.51503785287287 0.5 100
                                      6738.9384437394147)%float)
        by (vm_compute; reflexivity).
      rewrite Hval in Hmain. now inversion Hmain. }
    subst r. vm_compute in Hle. discriminate Hle.
  - intros (r & Hmain & Hnear).
    rewrite Scenario.exact_main in Hmain. inversion Hmain; subst r.
    cbn [totalDistance] in Hnear.
    pose proof Scenario.exact_total_distance_bounds as Hbounds.
    unfold Rabs in Hnear. destruct (Rcase_abs _) in Hnear; lra.
Qed.

(** C2.  For coefficients [a > 0] and [b >= 0] the optimiser returns the
    velocity [sqrt (b / (2 * a))], each operation being the one of the
    arithmetic at hand, and the altitude 100.  In exact arithmetic that
    velocity does square to [b / (2 * a)]. *)
Theorem C2_optimizer_closed_form :
  forall (a b : float) (a' b' : R),
    (0 <? a)%float = true -> (0 <=? b)%float = true ->
    (0 < a')%R -> (0 <= b')%R ->
    findOptimalSpeedAndAltitude a b
    = (PrimFloat.sqrt (b / (2 * a)), 100)%float
    /\ findOptimalSpeedAndAltitude a' b'
       = (R_sqrt.sqrt (b' / (2 * a')), 100)%R
    /\ (R_sqrt.sqrt (b' / (2 * a')) * R_sqrt.sqrt (b' / (2 * a'))
        = b' / (2 * a'))%R.
Proof.
  intros a b a' b' Ha _ Ha' Hb'. split; [| split].
  - apply F64Program.optimum_nonzero_f64, F64Facts.positive_is_nonzero, Ha.
  - apply ExactFacts.optimum_nonzero_exact. lra.
  - apply sqrt_sqrt. unfold Rdiv.
    apply Rmult_le_pos; [exact Hb' |].
    apply Rlt_le, Rinv_0_lt_compat. lra.
Qed.

(** C2 at the coefficients of the reference scenario, [a = 0.1] and
    [b = 0.05]. *)
Lemma C2_optimizer_closed_form_reference :
  findOptimalSpeedAndAltitude 0.1%float 0.05%float
  = (PrimFloat.sqrt (0.05 / (2 * 0.1)), 100)%float
  /\ findOptimalSpeedAndAltitude 0.1%R 0.05%R
     = (R_sqrt.sqrt (0.05 / (2 * 0.1)), 100)%R
  /\ (R_sqrt.sqrt (0.05 / (2 * 0.1)) * R_sqrt.sqrt (0.05 / (2 * 0.1))
      = 0.05 / (2 * 0.1))%R.
Proof.
  apply (C2_optimizer_closed_form 0.1%float 0.05%float 0.1%R 0.05%R);
    [reflexivity | reflexivity | lra | lra].
Defined.

(** C3, as the code has it.  For a vector of one waypoint the bound
    [waypoints.size() - 1] is 0, the body of the loop never runs and no
    element is read: the total distance is 0, whatever the arithmetic of
    [double] is.  The total energy is then the energy per unit distance
    times 0: in binary64 it compares equal to 0 when that energy is finite,
    in exact arithmetic it is 0. *)
Theorem C3_single_waypoint_total_zero :
  forall (a b c : float) (wp : Waypoint float),
    F64.finite
      (energyConsumption (fst (findOptimalSpeedAndAltitude a b)) 100%float
                         a b c) = true ->
    (forall (D : Type) (ops : Double D) (w : Waypoint D),
        size_wrap (size [w] - 1) = 0%Z
        /\ @pathLength D ops [w] = Done (of_int 0)
        /\ (forall i : Z, @pathLength D ops [w] <> OutOfBounds i))
    /\ (exists r : Report float,
           run a b c [wp] = Done r
           /\ totalDistance r = 0%float
           /\ (totalEnergy r =? 0)%float = true)
    /\ (forall (a' b' c' : R) (wp' : Waypoint R),
           run a' b' c' [wp']
           = Done (mkReport 0 (fst (findOptimalSpeedAndAltitude a' b'))
                            100 0)%R).
Proof.
  intros a b c wp Hfin. split; [| split].
  - intros D ops w.
    split; [reflexivity |]. split; [reflexivity | discriminate].
  - rewrite F64Program.run_singleton_f64.
    eexists. split; [reflexivity |]. split; [reflexivity |].
    cbn [totalEnergy]. now apply F64NaN.mul_zero_finite.
  - exact ExactFacts.run_singleton_exact.
Qed.

(** C3 at the coefficients and the first waypoint of [main]. *)
Lemma C3_single_waypoint_reference :
  (forall (D : Type) (ops : Double D) (w : Waypoint D),
      size_wrap (size [w] - 1) = 0%Z
      /\ @pathLength D ops [w] = Done (of_int 0)
      /\ (forall i : Z, @pathLength D ops [w] <> OutOfBounds i))
  /\ (exists r : Report float,
         run F64.a F64.b F64.c [mkWaypoint 0 0 100]%float = Done r
         /\ totalDistance r = 0%float
         /\ (totalEnergy r =? 0)%float = true)
  /\ (forall (a' b' c' : R) (wp' : Waypoint R),
         run a' b' c' [wp']
         = Done (mkReport 0 (fst (findOptimalSpeedAndAltitude a' b'))
                          100 0)%R).
Proof.
  apply (C3_single_waypoint_total_zero F64.a F64.b F64.c
           (mkWaypoint 0 0 100)%float).
  vm_compute. reflexivity.
Defined.

(** C3, as the claim has it, fails at length 0, a length the vector of
    [main] never has: for the empty vector [waypoints.size() - 1] wraps to
    2^64 - 1, the loop test [0 < 2^64 - 1] succeeds and the body reads
    [waypoints[0]], which is outside the vector, so the summation does not
    yield total distance 0. *)
Lemma C3_empty_vector_is_not_handled :
  size_wrap (size (@nil (Waypoint float)) - 1) = (2 ^ 64 - 1)%Z
  /\ pathLength (@nil (Waypoint float)) = OutOfBounds 0
  /\ pathLength (@nil (Waypoint float)) <> Done 0%float
  /\ run F64.a F64.b F64.c [] = OutOfBounds 0.
Proof.
  split; [reflexivity |]. split; [reflexivity |].
  split; [discriminate | reflexivity].
Qed.

(** C4.  With [a = 0] the optimiser returns velocity 0 and altitude 100
    for every [b]: the test [a != 0] fails, also for the negative zero of
    binary64, so the quotient [b / (2 * a)] takes no part in the result,
    although in binary64 that quotient is never a finite number. *)
Theorem C4_optimizer_degenerate :
  (forall b : float,
      findOptimalSpeedAndAltitude 0%float b = (0, 100)%float
      /\ findOptimalSpeedAndAltitude (-0)%float b = (0, 100)%float
      /\ F64.finite (b / (2 * 0))%float = false)
  /\ (forall b : R, findOptimalSpeedAndAltitude 0%R b = (0, 100)%R).
Proof.
  split.
  - intros b. split; [| split].
    + apply F64Program.optimum_zero_f64; reflexivity.
    + apply F64Program.optimum_zero_f64; reflexivity.
    + apply F64Facts.div_zero_not_finite.
  - exact ExactFacts.optimum_zero_exact.
Qed.

(** C5, as the code has it.  When [a] is not zero and the quotient
    [b / (2 * a)] the code computes is below zero, the optimiser returns
    NaN as velocity (with altitude 100), the energy evaluated at it is NaN,
    and a run over a non-empty path still ends normally, reporting NaN as
    optimal velocity and as total energy. *)
Theorem C5_negative_quotient_propagates_nan :
  forall (a b c : float) (ws : list (Waypoint float)),
    (a =? 0)%float = false ->
    (b / (2 * a) <? 0)%float = true ->
    ws <> [] ->
    (size ws <= 2 ^ SIZE_WIDTH)%Z ->
    findOptimalSpeedAndAltitude a b = (nan, 100%float)
    /\ energyConsumption nan 100%float a b c = nan
    /\ run a b c ws = Done (mkReport (path_sum ws 0%float) nan 100%float nan).
Proof.
  intros a b c ws Ha Hneg Hne Hsize.
  split; [| split].
  - now rewrite (F64Program.optimum_nonzero_f64 a b Ha),
      (F64Facts.sqrt_negative _ Hneg).
  - apply F64Program.energy_nan.
  - now apply F64Program.run_negative_quotient.
Qed.

(** C5 at the coefficients the claim names, [a = -0.1] and [b = 0.05],
    with [c] and the waypoints of the reference scenario. *)
Lemma C5_negative_quotient_reference :
  findOptimalSpeedAndAltitude (-0.1)%float 0.05%float = (nan, 100%float)
  /\ energyConsumption nan 100%float (-0.1)%float 0.05%float 10%float = nan
  /\ run (-0.1)%float 0.05%float 10%float F64.waypoints
     = Done (mkReport (path_sum F64.waypoints 0%float) nan 100%float nan).
Proof.
  apply (C5_negative_quotient_propagates_nan
           (-0.1)%float 0.05%float 10%float F64.waypoints);
    [reflexivity | reflexivity | discriminate | apply Z.leb_le; reflexivity].
Defined.

(** C5, as the claim has it, fails: coefficients of opposite signs do not
    always give a quotient below zero.  For [a = -1e308] and [b = 1] the
    product [2 * a] overflows to minus infinity, the quotient is the
    negative zero and so is its square root: the velocity is no NaN, and
    the energy per unit distance and the total energy are finite. *)
Lemma C5_opposite_signs_without_nan :
  ((-1e308 <? 0) = true
   /\ (0 <? 1) = true
   /\ 1 / (2 * -1e308) = -0
   /\ (1 / (2 * -1e308) <? 0) = false
   /\ findOptimalSpeedAndAltitude (-1e308) 1 = (-0, 100)
   /\ energyConsumption (-0) 100 (-1e308) 1 10 = 110
   /\ run (-1e308) 1 10 F64.waypoints
      = Done (mkReport 448.51503785287287 (-0) 100 49336.654163816012))%float
  /\ fst (findOptimalSpeedAndAltitude (-1e308) 1)%float <> nan.
Proof.
  split; [repeat split; vm_compute; reflexivity |].
  intros Hnan. float_discriminate Hnan.
Qed.

(** C6, as the code has it.  In exact arithmetic the energy model is linear
    in the altitude: for a fixed velocity and fixed coefficients the
    difference of two evaluations is [b * (h2 - h1)]. *)
Theorem C6_energy_linear_in_altitude_exact :
  forall v h1 h2 a b c : R,
    (energyConsumption v h2 a b c - energyConsumption v h1 a b c
     = b * (h2 - h1))%R.
Proof.
  intros v h1 h2 a b c. rewrite !ExactFacts.energy_exact. ring.
Qed.

(** C6, as the claim has it, fails in binary64, where every operation
    rounds: with the coefficients and the optimal velocity of the reference
    scenario, between altitudes 0 and 150 the two evaluations differ by
    7.4999999999999982 while [b * (h2 - h1)] is 7.5. *)
Lemma C6_energy_difference_rounds_in_binary64 :
  (energyConsumption 0.5 150 0.1 0.05 10 - energyConsumption 0.5 0 0.1 0.05 10
   = 7.4999999999999982)%float
  /\ (0.05 * (150 - 0) = 7.5)%float
  /\ (7.4999999999999982 =? 7.5)%float = false
  /\ ~ (forall v h1 h2 a b c : float,
           (energyConsumption v h2 a b c - energyConsumption v h1 a b c
            = b * (h2 - h1))%float).
Proof.
  split; [vm_compute; reflexivity |].
  split; [vm_compute; reflexivity |].
  split; [vm_compute; reflexivity |].
  intros Hlinear.
  specialize (Hlinear 0.5 0 150 0.1 0.05 10)%float.
  float_discriminate Hlinear.
Qed.

(** C7.  The distance is symmetric, in binary64 (where the two subtractions
    round to opposite numbers and the squares forget the sign) and in exact
    arithmetic. *)
Theorem C7_distance_symmetric :
  (forall p q : Waypoint float, distance p q = distance q p)
  /\ (forall p q : Waypoint R, distance p q = distance q p).
Proof.
  split.
  - exact F64Program.distance_swap.
  - exact ExactFacts.distance_symmetric.
Qed.

(** C8, as the code has it.  The distance from a waypoint with finite
    coordinates to itself is 0; in exact arithmetic the distance of two
    waypoints is 0 exactly when they have equal coordinates. *)
Theorem C8_distance_zero :
  forall p : Waypoint float,
    F64.finite_waypoint p = true ->
    distance p p = 0%float
    /\ (forall p' q' : Waypoint R, distance p' q' = 0%R <-> p' = q').
Proof.
  intros p Hfin. split.
  - now apply F64Program.distance_self.
  - exact ExactFacts.distance_zero_iff.
Qed.

(** C8 at the last waypoint of the reference scenario. *)
Lemma C8_distance_zero_reference :
  distance (mkWaypoint 300 200 150)%float (mkWaypoint 300 200 150)%float
  = 0%float
  /\ (forall p' q' : Waypoint R, distance p' q' = 0%R <-> p' = q').
Proof.
  apply (C8_distance_zero (mkWaypoint 300 200 150)%float). reflexivity.
Defined.

(** C8, as the claim has it, fails in binary64: the square of a small
    difference underflows to 0, so two waypoints with different
    coordinates can be at distance 0. *)
Lemma C8_distinct_waypoints_at_distance_zero :
  (distance (mkWaypoint 0 0 0) (mkWaypoint 1e-200 0 0) = 0)%float
  /\ (1e-200 =? 0)%float = false
  /\ (1e-200 * 1e-200 = 0)%float
  /\ ~ (forall p q : Waypoint float,
           distance p q = 0%float
           <-> p.(x) = q.(x) /\ p.(y) = q.(y) /\ p.(z) = q.(z)).
Proof.
  split; [vm_compute; reflexivity |].
  split; [vm_compute; reflexivity |].
  split; [vm_compute; reflexivity |].
  intros Hiff.
  destruct (Hiff (mkWaypoint 0 0 0) (mkWaypoint 1e-200 0 0))%float
    as [Hzero _].
  destruct Hzero as (Hx & _ & _); [vm_compute; reflexivity |].
  cbn [x] in Hx. float_discriminate Hx.
Qed.

(** C9, as the code has it.  In exact arithmetic the distance satisfies the
    triangle inequality. *)
Theorem C9_triangle_inequality_exact :
  forall p q r : Waypoint R,
    (distance p r <= distance p q + distance q r)%R.
Proof. exact ExactFacts.distance_triangle. Qed.

(** C9, as the claim has it, fails in binary64: for the collinear waypoints
    (0,0,0), (1,1,2), (3,3,6) the rounded distances are
    7.3484692283495345 from end to end and 2.4494897427831779 and
    4.8989794855663558 for the two legs, whose rounded sum
    7.3484692283495336 is smaller. *)
Lemma C9_triangle_inequality_fails_in_binary64 :
  (distance (mkWaypoint 0 0 0) (mkWaypoint 3 3 6) = 7.3484692283495345)%float
  /\ (distance (mkWaypoint 0 0 0) (mkWaypoint 1 1 2)
      + distance (mkWaypoint 1 1 2) (mkWaypoint 3 3 6)
      = 7.3484692283495336)%float
  /\ (7.3484692283495345 <=? 7.3484692283495336)%float = false
  /\ ~ (forall p q r : Waypoint float,
           (distance p r <=? distance p q + distance q r)%float = true).
Proof.
  split; [vm_compute; reflexivity |].
  split; [vm_compute; reflexivity |].
  split; [vm_compute; reflexivity |].
  intros Htriangle.
  specialize (Htriangle (mkWaypoint 0 0 0) (mkWaypoint 1 1 2)
                        (mkWaypoint 3 3 6))%float.
  vm_compute in Htriangle. discriminate Htriangle.
Qed.

(** C10.  The energy model is even in the velocity, in binary64 and in
    exact arithmetic: the velocity enters only through its square. *)
Theorem C10_energy_even_in_velocity :
  (forall v h a b c : float,
      energyConsumption (- v)%float h a b c = energyConsumption v h a b c)
  /\ (forall v h a b c : R,
         energyConsumption (- v)%R h a b c = energyConsumption v h a b c).
Proof.
  split.
  - exact F64Program.energy_even.
  - intros v h a b c. rewrite !ExactFacts.energy_exact. ring.
Qed.

(** ** Further properties of the loop, in any arithmetic *)

(** X1.  On a vector that is not empty the summation loop ends normally
    after at most [size()] tests of its condition, reads no element outside
    the vector, and leaves in [totalDistance] the distances between
    consecutive waypoints added from left to right, starting from 0. *)
Theorem loop_sums_consecutive_distances :
  forall (D : Type) (ops : Double D) (ws : list (Waypoint D)) (fuel : nat),
    ws <> [] ->
    (size ws <= 2 ^ SIZE_WIDTH)%Z ->
    (length ws <= fuel)%nat ->
    @sum_loop D ops fuel ws 0 (of_int 0) = Done (path_sum ws (of_int 0))
    /\ @pathLength D ops ws = Done (path_sum ws (of_int 0)).
Proof.
  intros D ops ws fuel Hne Hsize Hfuel. split.
  - now apply sum_loop_enough_fuel.
  - now apply pathLength_nonempty.
Qed.

(** X1 at the four waypoints of [main]. *)
Lemma loop_sums_consecutive_distances_reference :
  sum_loop 4 F64.waypoints 0 (of_int 0)
  = Done (path_sum F64.waypoints (of_int 0))
  /\ pathLength F64.waypoints = Done (path_sum F64.waypoints (of_int 0)).
Proof.
  apply (loop_sums_consecutive_distances float F64.double_float
           F64.waypoints 4);
    [discriminate | apply Z.leb_le; reflexivity | apply Nat.le_refl].
Defined.

(** X2.  The loop reads outside the vector for the empty vector only, and
    then at index 0; so does a whole run.  The fuel of the model is never
    used up. *)
Theorem loop_reads_outside_only_when_empty :
  forall (D : Type) (ops : Double D) (ws : list (Waypoint D)),
    (size ws <= 2 ^ SIZE_WIDTH)%Z ->
    (forall i : Z, @pathLength D ops ws = OutOfBounds i <-> ws = [] /\ i = 0%Z)
    /\ (forall (a b c : D) (i : Z),
           @run D ops a b c ws = OutOfBounds i <-> ws = [] /\ i = 0%Z)
    /\ @pathLength D ops ws <> OutOfFuel.
Proof.
  intros D ops ws Hsize.
  assert (Hpath : forall i : Z,
             @pathLength D ops ws = OutOfBounds i <-> ws = [] /\ i = 0%Z).
  { intros i. destruct ws as [| w ws].
    - split.
      + intros Hout. split; [reflexivity |].
        change (@OutOfBounds D 0 = OutOfBounds i) in Hout. now inversion Hout.
      + intros [_ ->]. reflexivity.
    - rewrite pathLength_nonempty by (assumption || discriminate).
      split; [discriminate | intros [Hnil _]; discriminate]. }
  split; [exact Hpath |]. split.
  - intros a b c i. rewrite <- Hpath. unfold run.
    destruct (pathLength ws) as [d | j |].
    + destruct (findOptimalSpeedAndAltitude a b).
      split; discriminate.
    + split; intros Hout; inversion Hout; reflexivity.
    + split; discriminate.
  - now apply pathLength_fuel.
Qed.

(** X2 at the four waypoints of [main]. *)
Lemma loop_reads_outside_only_when_empty_reference :
  (forall i : Z, pathLength F64.waypoints = OutOfBounds i
                 <-> F64.waypoints = [] /\ i = 0%Z)
  /\ (forall (a b c : float) (i : Z),
         run a b c F64.waypoints = OutOfBounds i
         <-> F64.waypoints = [] /\ i = 0%Z)
  /\ pathLength F64.waypoints <> OutOfFuel.
Proof.
  apply (loop_reads_outside_only_when_empty float F64.double_float
           F64.waypoints).
  apply Z.leb_le. reflexivity.
Defined.

(** X3.  Appending a waypoint [q] to a path that ends in [p] adds the
    distance from [p] to [q], by one addition, to the total of the path. *)
Theorem path_extended_by_one_waypoint :
  forall (D : Type) (ops : Double D) (ws : list (Waypoint D))
         (p q : Waypoint D),
    (size (ws ++ [p; q]) <= 2 ^ SIZE_WIDTH)%Z ->
    exists d : D,
      @pathLength D ops (ws ++ [p]) = Done d
      /\ @pathLength D ops (ws ++ [p; q]) = Done (add d (distance p q)).
Proof.
  intros D ops ws p q Hsize.
  exists (path_sum (ws ++ [p]) (of_int 0)). split.
  - apply pathLength_nonempty.
    + destruct ws; discriminate.
    + apply (size_app_le ws [p; q] Hsize). simpl. lia.
  - rewrite pathLength_nonempty; [| destruct ws; discriminate | exact Hsize].
    now rewrite path_sum_snoc.
Qed.

(** X3 at the first three waypoints of [main]. *)
Lemma path_extended_by_one_waypoint_reference :
  exists d : float,
    pathLength ([mkWaypoint 0 0 100] ++ [mkWaypoint 100 100 150])%float
    = Done d
    /\ pathLength ([mkWaypoint 0 0 100]
                   ++ [mkWaypoint 100 100 150; mkWaypoint 200 50 120])%float
       = Done (add d (distance (mkWaypoint 100 100 150)
                               (mkWaypoint 200 50 120)))%float.
Proof.
  apply (path_extended_by_one_waypoint float F64.double_float
           [mkWaypoint 0 0 100]%float).
  apply Z.leb_le. reflexivity.
Defined.

(** ** Further properties in binary64 *)

(** X4.  The distance of two waypoints is never a negative number,
    whatever the coordinates are: it is zero, positive, infinite or a NaN.
    In exact arithmetic it is at least 0. *)
Theorem distance_never_negative :
  (forall p q : Waypoint float, (distance p q <? 0)%float = false)
  /\ (forall p q : Waypoint R, (0 <= distance p q)%R).
Proof.
  split.
  - intros p q. apply F64Sign.nonneg_not_negative, F64Sign.distance_nonneg.
  - exact ExactPath.distance_nonneg_exact.
Qed.

(** X5.  Whenever a run ends normally, the total distance it reports is not
    a negative number. *)
Theorem total_distance_never_negative :
  forall (a b c : float) (ws : list (Waypoint float)) (r : Report float),
    run a b c ws = Done r -> (totalDistance r <? 0)%float = false.
Proof.
  intros a b c ws r Hrun.
  apply F64Sign.nonneg_not_negative.
  apply (F64Run.sum_loop_nonneg (S (length ws)) ws 0 (of_int 0));
    [reflexivity |].
  exact (F64Run.run_done_total a b c ws r Hrun).
Qed.

(** X5 at the run of [main]. *)
Lemma total_distance_never_negative_reference :
  F64.main
  = Done (mkReport 448.51503785287287 0.5 100 6738.9384437394147)%float
  /\ (totalDistance
        (mkReport 448.51503785287287 0.5 100 6738.9384437394147)
      <? 0)%float = false.
Proof.
  split; [vm_compute; reflexivity |].
  apply (total_distance_never_negative F64.a F64.b F64.c F64.waypoints
           (mkReport 448.51503785287287 0.5 100 6738.9384437394147)%float).
  vm_compute. reflexivity.
Defined.

(** X6.  The velocity the optimiser returns is never a negative number and
    the altitude is 100, for all coefficients, NaN and infinities
    included. *)
Theorem optimizer_velocity_never_negative :
  forall a b : float,
    (fst (findOptimalSpeedAndAltitude a b) <? 0)%float = false
    /\ snd (findOptimalSpeedAndAltitude a b) = 100%float.
Proof.
  intros a b. rewrite F64Program.optimum_f64. cbn [fst snd].
  split; [| reflexivity].
  destruct (negb (a =? 0)%float); [apply F64Sign.sqrt_not_negative |].
  reflexivity.
Qed.

(** X7.  The optimiser returns a NaN velocity exactly when [a] is not zero
    and the quotient [b / (2 * a)] is a NaN or below zero. *)
Theorem optimizer_velocity_nan_iff :
  forall a b : float,
    fst (findOptimalSpeedAndAltitude a b) = nan
    <-> (a =? 0)%float = false
        /\ ((b / (2 * a))%float = nan \/ (b / (2 * a) <? 0)%float = true).
Proof.
  intros a b. rewrite F64Program.optimum_f64. cbn [fst].
  destruct (a =? 0)%float; cbn [negb].
  - split; [intros Hnan; float_discriminate Hnan | intros [Hfalse _]].
    discriminate Hfalse.
  - rewrite F64Sqrt.sqrt_nan_iff. tauto.
Qed.

(** X8.  A NaN coordinate makes every distance to or from that waypoint a
    NaN, and a run over a path of two or more waypoints that contains it
    reports NaN as total distance and as total energy. *)
Theorem nan_coordinate_reaches_the_report :
  forall (a b c : float) (ws : list (Waypoint float)) (p : Waypoint float),
    F64.nan_waypoint p ->
    In p ws ->
    (2 <= length ws)%nat ->
    (size ws <= 2 ^ SIZE_WIDTH)%Z ->
    (forall q : Waypoint float, distance p q = nan /\ distance q p = nan)
    /\ run a b c ws
       = Done (mkReport nan (fst (findOptimalSpeedAndAltitude a b))
                        100%float nan).
Proof.
  intros a b c ws p Hnan Hin Hlen Hsize. split.
  - intros q. split;
      [now apply F64NaN.distance_nan_l | now apply F64NaN.distance_nan_r].
  - rewrite run_nonempty; [| destruct ws; [easy | discriminate] | exact Hsize].
    cbn zeta.
    rewrite (F64NaN.path_sum_nan ws (of_int 0) p Hin Hnan Hlen).
    cbn [mul F64.double_float]. rewrite F64Facts.mul_nan_r. reflexivity.
Qed.

(** X8 at a path of two waypoints, the second with a NaN coordinate. *)
Lemma nan_coordinate_reaches_the_report_reference :
  (forall q : Waypoint float,
      distance (mkWaypoint nan 100 150)%float q = nan
      /\ distance q (mkWaypoint nan 100 150)%float = nan)
  /\ run F64.a F64.b F64.c
         [mkWaypoint 0 0 100; mkWaypoint nan 100 150]%float
     = Done (mkReport nan
               (fst (findOptimalSpeedAndAltitude F64.a F64.b))
               100%float nan).
Proof.
  apply (nan_coordinate_reaches_the_report F64.a F64.b F64.c
           [mkWaypoint 0 0 100; mkWaypoint nan 100 150]%float
           (mkWaypoint nan 100 150)%float);
    [left; reflexivity | right; left; reflexivity | apply Nat.le_refl
    | apply Z.leb_le; reflexivity].
Defined.

(** X9.  The energy model returns a NaN as soon as one of its five
    arguments is a NaN, and the optimiser returns a NaN velocity when [a]
    is a NaN. *)
Theorem energy_propagates_nan :
  forall v h a b c b' : float,
    v = nan \/ h = nan \/ a = nan \/ b = nan \/ c = nan ->
    energyConsumption v h a b c = nan
    /\ findOptimalSpeedAndAltitude nan b' = (nan, 100%float).
Proof.
  intros v h a b c b' Hnan. split.
  - now apply F64NaN.energy_nan_argument.
  - apply F64NaN.optimum_nan_a.
Qed.

(** X9 at a NaN altitude. *)
Lemma energy_propagates_nan_reference :
  energyConsumption 0.5%float nan 0.1%float 0.05%float 10%float = nan
  /\ findOptimalSpeedAndAltitude nan 0.05%float = (nan, 100%float).
Proof.
  apply (energy_propagates_nan 0.5 nan 0.1 0.05 10 0.05)%float.
  right; left; reflexivity.
Defined.

(** X10.  A path that stays at one waypoint with finite coordinates, once
    or many times over, has total distance 0. *)
Theorem hovering_path_has_length_zero :
  forall (p : Waypoint float) (n : nat),
    F64.finite_waypoint p = true ->
    (1 <= n)%nat ->
    (Z.of_nat n <= 2 ^ SIZE_WIDTH)%Z ->
    pathLength (repeat p n) = Done 0%float.
Proof.
  intros p n Hfin Hn Hsize.
  rewrite pathLength_nonempty.
  - now rewrite <- (F64Run.path_sum_hover p n Hfin).
  - destruct n; [lia | discriminate].
  - unfold size. now rewrite repeat_length.
Qed.

(** X10 at the last waypoint of [main], three times over. *)
Lemma hovering_path_has_length_zero_reference :
  pathLength (repeat (mkWaypoint 300 200 150)%float 3) = Done 0%float.
Proof.
  apply (hovering_path_has_length_zero (mkWaypoint 300 200 150)%float 3);
    [reflexivity | lia | apply Z.leb_le; reflexivity].
Defined.

(** X11.  For a path of one waypoint the loop body never runs: the total
    distance is 0, and the total energy is the energy per unit distance
    times 0, which is zero when that energy is finite and a NaN when it is
    infinite or a NaN.  In exact arithmetic the total energy is 0. *)
Theorem single_waypoint_path :
  (forall (a b c : float) (wp : Waypoint float),
      exists r : Report float,
        run a b c [wp] = Done r
        /\ totalDistance r = 0%float
        /\ let e := energyConsumption
                      (fst (findOptimalSpeedAndAltitude a b)) 100%float a b c
           in (F64.finite e = true -> (totalEnergy r =? 0)%float = true)
              /\ (F64.finite e = false -> totalEnergy r = nan))
  /\ (forall (a b c : R) (wp : Waypoint R),
         run a b c [wp]
         = Done (mkReport 0 (fst (findOptimalSpeedAndAltitude a b)) 100 0)%R).
Proof.
  split.
  - intros a b c wp. rewrite F64Program.run_singleton_f64.
    eexists. split; [reflexivity |]. split; [reflexivity |].
    cbn [totalEnergy]. split.
    + apply F64NaN.mul_zero_finite.
    + apply F64NaN.mul_zero_not_finite.
  - exact ExactFacts.run_singleton_exact.
Qed.

(** ** Further properties in exact arithmetic *)

(** X12.  In exact arithmetic, for [a > 0] and [b >= 0], the energy per
    unit distance at the velocity and altitude the optimiser returns is
    [b / 2 + 100 * b + c], whatever [a] is; it is never below the energy at
    velocity 0 and the same altitude, and above it when [b > 0]: the
    returned velocity does not minimise the energy model. *)
Theorem energy_at_optimum_exact :
  forall a b c : R,
    (0 < a)%R -> (0 <= b)%R ->
    let v := fst (findOptimalSpeedAndAltitude a b) in
    let h := snd (findOptimalSpeedAndAltitude a b) in
    (energyConsumption v h a b c = b / 2 + 100 * b + c)%R
    /\ (energyConsumption 0 h a b c <= energyConsumption v h a b c)%R
    /\ ((0 < b)%R ->
        (energyConsumption 0 h a b c < energyConsumption v h a b c)%R).
Proof.
  intros a b c Ha Hb v h.
  pose proof (ExactPath.energy_at_optimum a b c Ha Hb) as Hopt.
  fold v h in Hopt. rewrite Hopt.
  assert (Hzero : (energyConsumption 0 h a b c = 100 * b + c)%R).
  { rewrite ExactFacts.energy_exact. unfold h.
    rewrite ExactPath.optimum_altitude. lra. }
  rewrite Hzero. repeat split; intros; lra.
Qed.

(** X12 at the coefficients of [main]. *)
Lemma energy_at_optimum_exact_reference :
  let v := fst (findOptimalSpeedAndAltitude Exact.a Exact.b) in
  let h := snd (findOptimalSpeedAndAltitude Exact.a Exact.b) in
  (energyConsumption v h Exact.a Exact.b Exact.c
   = Exact.b / 2 + 100 * Exact.b + Exact.c)%R
  /\ (energyConsumption 0 h Exact.a Exact.b Exact.c
      <= energyConsumption v h Exact.a Exact.b Exact.c)%R
  /\ ((0 < Exact.b)%R ->
      (energyConsumption 0 h Exact.a Exact.b Exact.c
       < energyConsumption v h Exact.a Exact.b Exact.c)%R).
Proof.
  apply (energy_at_optimum_exact Exact.a Exact.b Exact.c);
    unfold Exact.a, Exact.b; lra.
Defined.

(** X13.  In exact arithmetic the total distance of a path is at least the
    straight-line distance between its first and its last waypoint, which
    is at least 0. *)
Theorem path_at_least_straight_line :
  forall (p : Waypoint R) (ws : list (Waypoint R)),
    (size (p :: ws) <= 2 ^ SIZE_WIDTH)%Z ->
    exists d : R,
      pathLength (p :: ws) = Done d
      /\ (0 <= distance p (last ws p) <= d)%R.
Proof.
  intros p ws Hsize. exists (path_sum (p :: ws) 0%R). split.
  - refine (pathLength_nonempty (p :: ws) _ Hsize). discriminate.
  - split; [apply ExactPath.distance_nonneg_exact |].
    apply ExactPath.straight_line_le_path.
Qed.

(** X13 at the four waypoints of [main]. *)
Lemma path_at_least_straight_line_reference :
  exists d : R,
    pathLength Exact.waypoints = Done d
    /\ (0 <= distance (mkWaypoint 0 0 100) (mkWaypoint 300 200 150) <= d)%R.
Proof.
  apply (path_at_least_straight_line
           (mkWaypoint 0 0 100)%R
           [mkWaypoint 100 100 150; mkWaypoint 200 50 120;
            mkWaypoint 300 200 150]%R).
  apply Z.leb_le. reflexivity.
Defined.

(** X14.  In exact arithmetic the waypoints taken in reverse order give
    the same total distance. *)
Theorem reversed_path_same_length :
  forall ws : list (Waypoint R),
    ws <> [] ->
    (size ws <= 2 ^ SIZE_WIDTH)%Z ->
    pathLength (rev ws) = pathLength ws.
Proof.
  intros ws Hne Hsize.
  rewrite (pathLength_nonempty ws Hne Hsize).
  rewrite pathLength_nonempty.
  - f_equal. apply ExactPath.path_sum_rev.
  - intros Hrev. apply Hne.
    apply (f_equal (@rev _)) in Hrev. now rewrite rev_involutive in Hrev.
  - unfold size in *. now rewrite length_rev.
Qed.

(** X14 at the four waypoints of [main]. *)
Lemma reversed_path_same_length_reference :
  pathLength (rev Exact.waypoints) = pathLength Exact.waypoints.
Proof.
  apply (reversed_path_same_length Exact.waypoints);
    [discriminate | apply Z.leb_le; reflexivity].
Defined.

(** X15.  In exact arithmetic, with [a >= 0] and [b >= 0], the energy model
    does not decrease when the speed [|v|] or the altitude grows. *)
Theorem energy_monotone_exact :
  forall v1 v2 h1 h2 a b c : R,
    (0 <= a)%R -> (0 <= b)%R ->
    (Rabs v1 <= Rabs v2)%R -> (h1 <= h2)%R ->
    (energyConsumption v1 h1 a b c <= energyConsumption v2 h2 a b c)%R.
Proof.
  intros v1 v2 h1 h2 a b c Ha Hb Hv Hh.
  rewrite !ExactFacts.energy_exact.
  assert (Hsq : (v1 * v1 <= v2 * v2)%R).
  { unfold Rabs in Hv.
    destruct (Rcase_abs v1), (Rcase_abs v2); nra. }
  nra.
Qed.

(** X15 between the optimum of [main] and a faster, higher flight. *)
Lemma energy_monotone_exact_reference :
  (energyConsumption (1 / 2) 100 Exact.a Exact.b Exact.c
   <= energyConsumption (-2) 150 Exact.a Exact.b Exact.c)%R.
Proof.
  apply (energy_monotone_exact (1 / 2) (-2) 100 150 Exact.a Exact.b Exact.c);
    unfold Exact.a, Exact.b; try lra.
  unfold Rabs. destruct (Rcase_abs (1 / 2)), (Rcase_abs (-2)); lra.
Defined.
